(** * Pourbaix diagram generator: a shallow embedding of [main.py]

    The script fetches Pourbaix entries for a list of elements from the
    Materials Project, caches them as JSON files, reloads them, builds a
    composition and a concentration dictionary and hands everything to
    pymatgen for plotting.

    Conventions of the embedding:
    - effects (file system, process environment, remote requests, standard
      output, the interactive viewer) live in an explicit [world]; every
      function of the script is a computation [M A] that threads the world
      and may raise a Python exception.  Effects performed before an
      exception is raised stay visible in the world that is returned;
    - the third-party libraries (pymatgen, mp_api, json, dotenv, matplotlib)
      are an interface, [PourbaixLib]; the script is written against it;
    - a Python [dict] is an association list in insertion order;
    - Python floats are idealised as exact rationals ([Q]): the rounding of
      [1 / n] to binary64 is not part of this model. *)

From Stdlib Require Import Ascii String QArith.
From stdpp Require Import base strings list gmap.

Local Open Scope string_scope.
Local Open Scope list_scope.

(** ** Exceptions and results *)

Inductive exn : Type :=
  | FileNotFoundError (path : string)
  | IsADirectoryError (path : string)
  | IndexError
  | ExternalError (msg : string).

Inductive result (A : Type) : Type :=
  | Ok (a : A)
  | Raise (e : exn).
Arguments Ok {A} a.
Arguments Raise {A} e.

(** ** The world the script runs in *)

Record world : Type := World {
  dirs : gset string;                (* directories that exist *)
  files : gmap string string;        (* regular files and their content *)
  environ : gmap string string;      (* os.environ *)
  requests : list (list string);     (* queries sent to the remote, oldest first *)
  stdout : list string;              (* lines printed *)
  shown : nat                        (* figures displayed by plt.show() *)
}.

Definition set_files (f : gmap string string) (w : world) : world :=
  World (dirs w) f (environ w) (requests w) (stdout w) (shown w).
Definition set_environ (e : gmap string string) (w : world) : world :=
  World (dirs w) (files w) e (requests w) (stdout w) (shown w).
Definition set_requests (r : list (list string)) (w : world) : world :=
  World (dirs w) (files w) (environ w) r (stdout w) (shown w).
Definition set_stdout (o : list string) (w : world) : world :=
  World (dirs w) (files w) (environ w) (requests w) o (shown w).
Definition set_shown (n : nat) (w : world) : world :=
  World (dirs w) (files w) (environ w) (requests w) (stdout w) n.

(** ** The monad of computations *)

Definition M (A : Type) : Type := world → result A * world.

Definition ret {A} (a : A) : M A := λ w, (Ok a, w).
Definition raise {A} (e : exn) : M A := λ w, (Raise e, w).
Definition bind {A B} (m : M A) (k : A → M B) : M B :=
  λ w, match m w with
       | (Ok a, w') => k a w'
       | (Raise e, w') => (Raise e, w')
       end.
Definition lift {A} (r : result A) : M A := λ w, (r, w).

Notation "'do' x <- m ; k" := (bind m (λ x, k))
  (at level 10, x name, m at level 99, k at level 200).
Notation "'run' m ; k" := (bind m (λ _, k))
  (at level 10, m at level 99, k at level 200).

(** [for x in l: body(x)] *)
Fixpoint for_each {A} (l : list A) (body : A → M unit) : M unit :=
  match l with
  | [] => ret tt
  | x :: l' => run body x; for_each l' body
  end.

(** [[f(x) for x in l]] where [f] may raise: stops at the first exception. *)
Fixpoint comprehension {A B} (f : A → result B) (l : list A) : result (list B) :=
  match l with
  | [] => Ok []
  | x :: l' =>
      match f x with
      | Raise e => Raise e
      | Ok y =>
          match comprehension f l' with
          | Raise e => Raise e
          | Ok ys => Ok (y :: ys)
          end
      end
  end.

(** ** Python dictionaries, in insertion order *)

Definition dict (V : Type) : Type := list (string * V).

(** [d[k] = v]: an existing key keeps its position, a new key goes last. *)
Fixpoint dict_set {V} (k : string) (v : V) (d : dict V) : dict V :=
  match d with
  | [] => [(k, v)]
  | (k', v') :: d' =>
      if String.eqb k k' then (k, v) :: d' else (k', v') :: dict_set k v d'
  end.

Fixpoint dict_get {V} (k : string) (d : dict V) : option V :=
  match d with
  | [] => None
  | (k', v') :: d' => if String.eqb k k' then Some v' else dict_get k d'
  end.

Definition dict_keys {V} (d : dict V) : list string := d.*1.
Definition dict_values {V} (d : dict V) : list V := d.*2.

(** [{x: f(x) for x in l}] *)
Definition dict_comprehension {V} (f : string → V) (l : list string) : dict V :=
  fold_left (λ d x, dict_set x (f x) d) l [].


(** ** Operating-system primitives used by the script *)

(** The directories a path runs through: every proper prefix that is
    followed by a slash.  For [a/b/c.json] these are [a] and [a/b]. *)
Fixpoint ancestors (acc : string) (p : string) : list string :=
  match p with
  | EmptyString => []
  | String c p' =>
      if Ascii.eqb c "/"%char
      then acc :: ancestors (acc +:+ "/") p'
      else ancestors (acc +:+ String c EmptyString) p'
  end.

Definition is_dir (w : world) (d : string) : bool :=
  bool_decide (d = EmptyString ∨ d ∈ dirs w).

(** [os.path.lexists] *)
Definition lexists (w : world) (p : string) : bool :=
  bool_decide (is_Some (files w !! p) ∨ p ∈ dirs w).

(** [with open(path, 'w') as f: f.write(content)]: the file is created or
    truncated; no directory is ever created. *)
Definition open_write (path content : string) : M unit :=
  λ w, if forallb (is_dir w) (ancestors EmptyString path) then
         if bool_decide (path ∈ dirs w) then (Raise (IsADirectoryError path), w)
         else (Ok tt, set_files (<[path := content]> (files w)) w)
       else (Raise (FileNotFoundError path), w).

(** [with open(path, 'r') as f: f.read()] *)
Definition open_read (path : string) : M string :=
  λ w, match files w !! path with
       | Some content => (Ok content, w)
       | None =>
           if bool_decide (path ∈ dirs w) then (Raise (IsADirectoryError path), w)
           else (Raise (FileNotFoundError path), w)
       end.

Definition print (line : string) : M unit :=
  λ w, (Ok tt, set_stdout (stdout w ++ [line]) w).

Definition getenv (name : string) : M (option string) :=
  λ w, (Ok (environ w !! name), w).

(** [glob.has_magic]: the pattern contains a star, a question mark or an
    opening square bracket. *)
Fixpoint has_magic (s : string) : bool :=
  match s with
  | EmptyString => false
  | String c s' =>
      Ascii.eqb c "*"%char || Ascii.eqb c "?"%char || Ascii.eqb c "["%char
      || has_magic s'
  end.

(** ** The third-party libraries, as an interface *)

(** Keyword arguments of [PourbaixPlotter.get_pourbaix_plot] and the axis
    styling applied to the figure before it is saved. *)
Record plot_options : Type := PlotOptions {
  limits : (Z * Z) * (Z * Z);
  label_domains : bool;
  label_fontsize : Z;
  show_water_lines : bool;
  show_neutral_axes : bool;
  axis_label_size : Z;
  tick_fontsize : Z
}.

Class PourbaixLib : Type := {
  (** pymatgen's [PourbaixEntry], the dictionaries of [as_dict] and
      [PourbaixDiagram]: opaque to the script *)
  Entry : Type;
  EntryDict : Type;
  Diagram : Type;
  as_dict : Entry → EntryDict;
  from_dict : EntryDict → result Entry;
  (** [json.dumps] on a list of such dictionaries, and [json.loads]; a
      document that is not a list of dictionaries is an exception here,
      as it is one step later in the script *)
  json_dumps : list EntryDict → string;
  json_loads : string → result (list EntryDict);
  (** the variables of the dotenv file that [load_dotenv] finds (none when
      there is no such file); the script never writes that file *)
  dotenv_values : gmap string string;
  (** [MPRester(api_key).get_pourbaix_entries(chemsys)] *)
  mpr_get_pourbaix_entries : option string → list string → result (list Entry);
  (** what [glob.glob] returns for a pattern with wildcards *)
  glob_wild : gset string → gmap string string → string → list string;
  (** [PourbaixDiagram(entries, comp_dict, conc_dict, filter_solids)] *)
  PourbaixDiagram : list Entry → dict Q → dict Q → bool → result Diagram;
  (** the bytes [plt.savefig] writes for the plot of a diagram *)
  render_png : Diagram → plot_options → result string
}.

(** A small instance of the interface, to run the script on concrete
    worlds: an entry is a name, its dictionary is the name itself, a list
    is serialised with a semicolon after each name, the remote knows iron and
    copper, and a diagram is drawn as the list of its entries followed by
    its composition keys. *)
Module Toy.

Fixpoint lines (cur : string) (s : string) : list string :=
  match s with
  | EmptyString => []
  | String c s' =>
      if Ascii.eqb c ";"%char then cur :: lines EmptyString s'
      else lines (cur +:+ String c EmptyString) s'
  end.

Definition dumps (l : list string) : string :=
  String.concat EmptyString (map (λ x, x +:+ ";") l).

Definition remote (key : option string) (chemsys : list string)
  : result (list string) :=
  match chemsys with
  | [c] =>
      if String.eqb c "Fe" then Ok ["Fe(s)"; "Fe2O3(s)"; "Fe[2+]"]
      else if String.eqb c "Cu" then Ok ["Cu(s)"; "CuO(s)"]
      else Raise (ExternalError "unknown element")
  | _ => Raise (ExternalError "unknown element")
  end.

#[export] Instance lib : PourbaixLib := {|
  Entry := string;
  EntryDict := string;
  Diagram := list string * list string;
  as_dict := λ e, e;
  from_dict := λ d, Ok d;
  json_dumps := dumps;
  json_loads := λ s, Ok (lines EmptyString s);
  dotenv_values := ∅;
  mpr_get_pourbaix_entries := remote;
  glob_wild := λ _ _ _, [];
  PourbaixDiagram := λ es comp _ _, Ok (es, comp.*1);
  render_png := λ d _, Ok (dumps (d.1 ++ d.2))
|}.

(** A working directory with both directories present and nothing cached. *)
Definition fresh : world :=
  World {[ "pourbaix_entries"; "pourbaix_diagrams" ]} ∅ ∅ [] [] 0.

(** A working directory without the two directories. *)
Definition bare : world := World ∅ ∅ ∅ [] [] 0.

(** Iron is cached already. *)
Definition cached : world :=
  World {[ "pourbaix_entries"; "pourbaix_diagrams" ]}
        {[ "pourbaix_entries/Fe.json" := "Fe(s);" ]} ∅ [] [] 0.

End Toy.

(** ** The script *)

Section Script.
Context {L : PourbaixLib}.

Definition JSON_ENTRIES_DIR : string := "pourbaix_entries".
Definition DIAGRAMS_DIR : string := "pourbaix_diagrams".

(** [f'{JSON_ENTRIES_DIR}/{compound}.json'] *)
Definition entries_path (compound : string) : string :=
  JSON_ENTRIES_DIR +:+ "/" +:+ compound +:+ ".json".

(** [f'{DIAGRAMS_DIR}/{filename}.png'] *)
Definition diagram_path (filename : string) : string :=
  DIAGRAMS_DIR +:+ "/" +:+ filename +:+ ".png".

(** [glob.glob(pattern)]: without wildcards, the pattern itself when
    something exists under that name. *)
Definition glob (pattern : string) : M (list string) :=
  λ w, (Ok (if has_magic pattern then glob_wild (dirs w) (files w) pattern
            else if lexists w pattern then [pattern] else []), w).

(** [load_dotenv(override=True)]: the variables of the dotenv file are
    written over the process environment. *)
Definition load_dotenv : M unit :=
  λ w, (Ok tt, set_environ (dotenv_values ∪ environ w) w).

Definition get_pourbaix_entries (api_key : option string) (chemsys : list string)
  : M (list Entry) :=
  λ w, (mpr_get_pourbaix_entries api_key chemsys,
        set_requests (requests w ++ [chemsys]) w).

Definition plt_show : M unit := λ w, (Ok tt, set_shown (S (shown w)) w).

Definition retrieve_pourbaix_entries (compound : string) : M (list Entry) :=
  run load_dotenv;
  do api_key <- getenv "MP_API_KEY_KAREL";
  do entries <- get_pourbaix_entries api_key [compound];
  ret entries.

Definition save_pourbaix_entries (compound : string) (entries : list Entry)
  : M unit :=
  let entries_dct := map as_dict entries in
  open_write (entries_path compound) (json_dumps entries_dct).

Definition get_stored_pourbaix_entries (compound : string) : M (list Entry) :=
  do content <- open_read (entries_path compound);
  do entries_dct <- lift (json_loads content);
  do entries <- lift (comprehension from_dict entries_dct);
  ret entries.

(** The body of the loop of [compounds_entries_to_disk]. *)
Definition ensure_cached (compound : string) : M unit :=
  do found <- glob (entries_path compound);
  if (0 <? length found)%nat then ret tt
  else
    do entries <- retrieve_pourbaix_entries compound;
    save_pourbaix_entries compound entries.

Definition compounds_entries_to_disk (compounds : list string) : M unit :=
  for_each compounds ensure_cached.

(** The options of [get_pourbaix_plot] and the font sizes set on the axes. *)
Definition figure_options (fontsize : Z) : plot_options :=
  {| limits := ((0, 14), (-3, 3))%Z;
     label_domains := true;
     label_fontsize := fontsize;
     show_water_lines := true;
     show_neutral_axes := true;
     axis_label_size := fontsize;
     tick_fontsize := fontsize |}.

Definition plot_pourbaix_diagram (compounds : list string)
    (entries : list Entry) (comp_dict conc_dct : dict Q) : M unit :=
  let filename := String.concat EmptyString compounds in
  do pbx <- lift (PourbaixDiagram entries comp_dict conc_dct true);
  let fontsize := 20%Z in
  do png <- lift (render_png pbx (figure_options fontsize));
  run open_write (diagram_path filename) png;
  plt_show.

(** Lines 47-49 of [main]: the loop that extends [all_entries]. *)
Fixpoint load_all_entries (compounds : list string) (all_entries : list Entry)
  : M (list Entry) :=
  match compounds with
  | [] => ret all_entries
  | compound :: rest =>
      do entries <- get_stored_pourbaix_entries compound;
      load_all_entries rest (all_entries ++ entries)
  end.

(** The ion concentration [1e-8]. *)
Definition ion_concentration : Q := 1 # 100000000.

(** Lines 52-58 of [main]: the composition and the concentration dict. *)
Definition make_dicts (compounds : list string) : M (dict Q * dict Q) :=
  let n_compounds := length compounds in
  if (1 <? n_compounds)%nat then
    let comp_dct :=
      dict_comprehension (λ _, 1 / inject_Z (Z.of_nat n_compounds))%Q compounds in
    let conc_dct := dict_comprehension (λ _, ion_concentration) compounds in
    ret (comp_dct, conc_dct)
  else
    match compounds with
    | [] => raise IndexError
    | c0 :: _ => ret (dict_set c0 1%Q [], dict_set c0 ion_concentration [])
    end.

(** [main], with the hard-coded [compounds] list as a parameter. *)
Definition main_with (compounds : list string) : M Z :=
  if (length compounds =? 0)%nat then
    run print "Add at least one element to the compounds list!";
    ret 1%Z
  else
    run compounds_entries_to_disk compounds;
    do all_entries <- load_all_entries compounds [];
    do dcts <- make_dicts compounds;
    run plot_pourbaix_diagram compounds all_entries dcts.1 dcts.2;
    ret 0%Z.

(** [main] as it stands in the repository: [compounds] is the empty list. *)
Definition main : M Z := main_with [].

(** ** Notions used in the statements *)

(** The credential the remote is queried with: the value of
    [MP_API_KEY_KAREL] once [load_dotenv] has run. *)
Definition api_key (w : world) : option string :=
  (dotenv_values ∪ environ w) !! "MP_API_KEY_KAREL".

(** The world right after the remote has been queried for [compound]. *)
Definition queried (compound : string) (w : world) : world :=
  set_requests (requests w ++ [[compound]])
    (set_environ (dotenv_values ∪ environ w) w).

Definition is_Ok {A} (r : result A) : Prop := ∃ a, r = Ok a.

(** [open(path, 'w')] succeeds: every directory on the way exists and the
    path is not itself a directory. *)
Definition writable (w : world) (path : string) : bool :=
  forallb (is_dir w) (ancestors EmptyString path)
  && negb (bool_decide (path ∈ dirs w)).

(** Whatever exists lies in directories that exist. *)
Definition wf_world (w : world) : Prop :=
  ∀ p, lexists w p = true → forallb (is_dir w) (ancestors EmptyString p) = true.

(** An entry collection the libraries serialise faithfully: the schema
    of [as_dict] and [from_dict] is stable and JSON keeps the
    dictionaries. *)
Definition valid_collection (E : list Entry) : Prop :=
  json_loads (json_dumps (map as_dict E)) = Ok (map as_dict E)
  ∧ Forall (λ e, from_dict (as_dict e) = Ok e) E.

(** The [else] branch of the loop body, unfolded: a query followed by a
    save. *)
Definition fetch_and_save (x : string) (w : world) : result unit * world :=
  match mpr_get_pourbaix_entries (api_key w) [x] with
  | Ok es => save_pourbaix_entries x es (queried x w)
  | Raise e => (Raise e, queried x w)
  end.

(** An element is ready when its cache file is there, or when the remote
    answers the query for it and its cache file can be written. *)
Definition ready (w : world) (compound : string) : Prop :=
  lexists w (entries_path compound) = true
  ∨ (is_Ok (mpr_get_pourbaix_entries (api_key w) [compound])
     ∧ writable w (entries_path compound) = true).

(** Number of distinct identifiers of a list. *)
Definition distinct (l : list string) : nat := length (remove_dups l).


(** A computation that creates no directory and removes none. *)
Definition keeps_dirs {A} (m : M A) : Prop := ∀ w, dirs (m w).2 = dirs w.

End Script.

(** * Properties *)

(** ** The monad *)

Section Monad.
Context {A B : Type}.

Lemma bind_ok (m : M A) (k : A → M B) w a w1 :
  m w = (Ok a, w1) → bind m k w = k a w1.
Proof. intros H. unfold bind. by rewrite H. Qed.

Lemma bind_raise (m : M A) (k : A → M B) w e w1 :
  m w = (Raise e, w1) → bind m k w = (Raise e, w1).
Proof. intros H. unfold bind. by rewrite H. Qed.

Lemma comprehension_fmap (f : A → B) (g : B → result A) (l : list A) :
  Forall (λ x, g (f x) = Ok x) l → comprehension g (map f l) = Ok l.
Proof.
  induction 1 as [|x l Hx _ IH]; [done|].
  cbn. by rewrite Hx, IH.
Qed.

End Monad.

(** ** Strings and paths *)

Lemma has_magic_app (a b : string) :
  has_magic (a +:+ b) = has_magic a || has_magic b.
Proof.
  induction a as [|c a IH]; [done|].
  simpl. rewrite IH. by rewrite !orb_assoc.
Qed.

Lemma entries_path_magic (c : string) :
  has_magic (entries_path c) = has_magic c.
Proof.
  unfold entries_path. rewrite !has_magic_app.
  cbn. by rewrite !orb_false_r.
Qed.

Lemma string_length_app (a b : string) :
  String.length (a +:+ b) = (String.length a + String.length b)%nat.
Proof. induction a as [|c a IH]; [done|]. simpl. by rewrite IH. Qed.

Lemma string_app_inj_r (a b s : string) : a +:+ s = b +:+ s → a = b.
Proof.
  intros H.
  assert (Hl : String.length a = String.length b).
  { apply (f_equal String.length) in H. rewrite !string_length_app in H. lia. }
  revert b H Hl. induction a as [|x a IH]; intros [|y b] H Hl; try done.
  cbn in H. injection H as -> H. f_equal. apply IH; [done|]. cbn in Hl. lia.
Qed.

Lemma entries_path_inj (x y : string) : entries_path x = entries_path y → x = y.
Proof.
  unfold entries_path. intros H.
  do 2 apply String.app_inj in H. by apply string_app_inj_r in H.
Qed.

Lemma ancestors_entries_path (c : string) :
  ancestors EmptyString (entries_path c)
  = JSON_ENTRIES_DIR :: ancestors (JSON_ENTRIES_DIR +:+ "/") (c +:+ ".json").
Proof. reflexivity. Qed.

Lemma ancestors_diagram_path (f : string) :
  ancestors EmptyString (diagram_path f)
  = DIAGRAMS_DIR :: ancestors (DIAGRAMS_DIR +:+ "/") (f +:+ ".png").
Proof. reflexivity. Qed.

(** ** Writing and reading files *)

Lemma open_write_ok path content w :
  writable w path = true →
  open_write path content w = (Ok tt, set_files (<[path := content]> (files w)) w).
Proof.
  unfold writable, open_write. intros [H1 H2]%andb_true_iff.
  rewrite H1. apply negb_true_iff in H2. by rewrite H2.
Qed.

Lemma open_write_missing_dir path content w :
  forallb (is_dir w) (ancestors EmptyString path) = false →
  open_write path content w = (Raise (FileNotFoundError path), w).
Proof. unfold open_write. by intros ->. Qed.

Lemma open_write_dirs path content w :
  dirs (open_write path content w).2 = dirs w.
Proof. unfold open_write. repeat case_match; done. Qed.

Lemma is_dir_absent w d :
  d ≠ EmptyString → d ∉ dirs w → is_dir w d = false.
Proof.
  intros ??. unfold is_dir. apply bool_decide_eq_false. by intros [?|?].
Qed.

(** ** The entry store *)

Section Store.
Context {L : PourbaixLib}.

Lemma get_stored_of_file (c : string) (E : list Entry) (w : world) :
  files w !! entries_path c = Some (json_dumps (map as_dict E)) →
  valid_collection E →
  get_stored_pourbaix_entries c w = (Ok E, w).
Proof.
  intros Hf [Hjson Hdict]. unfold get_stored_pourbaix_entries.
  erewrite bind_ok; [|unfold open_read; by rewrite Hf].
  erewrite bind_ok; [|unfold lift; by rewrite Hjson].
  erewrite bind_ok; [done|]. unfold lift. by rewrite comprehension_fmap.
Qed.

Lemma save_ok (c : string) (E : list Entry) (w : world) :
  writable w (entries_path c) = true →
  save_pourbaix_entries c E w
  = (Ok tt, set_files (<[entries_path c := json_dumps (map as_dict E)]> (files w)) w).
Proof. intros H. unfold save_pourbaix_entries. by apply open_write_ok. Qed.

(** C3: reading back the file that [save_pourbaix_entries] has just written
    for a valid entry collection [E] returns [E] itself: the round trip
    through the store is the identity. *)
Theorem save_then_load_roundtrip (c : string) (E : list Entry) (w : world) :
  valid_collection E →
  writable w (entries_path c) = true →
  ∃ w', save_pourbaix_entries c E w = (Ok tt, w')
        ∧ get_stored_pourbaix_entries c w' = (Ok E, w').
Proof.
  intros HE Hw. eexists. split; [by apply save_ok|].
  apply get_stored_of_file; [|done]. cbn. by rewrite lookup_insert_eq.
Qed.

(** C7: when the stored collection of every listed element loads, the
    collection assembled by [main] is the concatenation of the per-element
    collections in list order; nothing is dropped or merged. *)
Theorem load_all_entries_concat (cs : list string) (ls : list (list Entry))
    (w : world) :
  Forall2 (λ c l, get_stored_pourbaix_entries c w = (Ok l, w)) cs ls →
  load_all_entries cs [] w = (Ok (concat ls), w).
Proof.
  intros H.
  enough (G : ∀ acc, load_all_entries cs acc w = (Ok (acc ++ concat ls), w))
    by apply (G []).
  induction H as [|c l cs ls Hc _ IH]; intros acc.
  - cbn. by rewrite app_nil_r.
  - cbn [load_all_entries concat]. erewrite bind_ok; [|exact Hc].
    rewrite IH. by rewrite app_assoc.
Qed.

End Store.

(** Projections of updated worlds. *)
Ltac world_simpl :=
  cbn [files dirs requests environ stdout shown queried
       set_files set_requests set_environ set_stdout set_shown fst snd] in *.

(** ** The local entry cache *)

Section Cache.
Context {L : PourbaixLib}.

Lemma retrieve_spec (x : string) (w : world) :
  retrieve_pourbaix_entries x w
  = (mpr_get_pourbaix_entries (api_key w) [x], queried x w).
Proof.
  unfold retrieve_pourbaix_entries, bind, load_dotenv, getenv,
    get_pourbaix_entries, ret, api_key, queried. cbn.
  by destruct (mpr_get_pourbaix_entries _ _).
Qed.

Lemma api_key_queried (x : string) (w : world) :
  api_key (queried x w) = api_key w.
Proof.
  unfold api_key, queried. cbn.
  by rewrite (assoc_L (∪)), (idemp_L (∪)).
Qed.

Lemma ensure_cached_cases (x : string) (w : world) :
  ensure_cached x w = (Ok tt, w) ∨ ensure_cached x w = fetch_and_save x w.
Proof.
  unfold ensure_cached, glob, fetch_and_save, bind.
  destruct (0 <? length _)%nat; [by left|right].
  rewrite retrieve_spec. by destruct (mpr_get_pourbaix_entries _ _).
Qed.

Lemma ensure_cached_hit (x : string) (w : world) :
  has_magic x = false → lexists w (entries_path x) = true →
  ensure_cached x w = (Ok tt, w).
Proof.
  intros Hx Hl. unfold ensure_cached, glob, bind.
  by rewrite entries_path_magic, Hx, Hl.
Qed.

Lemma ensure_cached_miss (x : string) (w : world) :
  has_magic x = false → lexists w (entries_path x) = false →
  ensure_cached x w = fetch_and_save x w.
Proof.
  intros Hx Hl. unfold ensure_cached, glob, fetch_and_save, bind.
  rewrite entries_path_magic, Hx, Hl.
  cbn -[retrieve_pourbaix_entries save_pourbaix_entries].
  rewrite retrieve_spec. by destruct (mpr_get_pourbaix_entries _ _).
Qed.

Lemma lexists_ext (w w' : world) (p : string) :
  files w' !! p = files w !! p → dirs w' = dirs w →
  lexists w' p = lexists w p.
Proof. unfold lexists. by intros -> ->. Qed.

(** One iteration leaves alone the cache file of an element that has one,
    and does not query the remote for it. *)
Lemma ensure_cached_frame (c x : string) (w w' : world) (r : result unit) :
  has_magic c = false → lexists w (entries_path c) = true →
  ensure_cached x w = (r, w') →
  files w' !! entries_path c = files w !! entries_path c
  ∧ dirs w' = dirs w
  ∧ ∃ new, requests w' = requests w ++ new ∧ Forall (λ q, c ∉ q) new.
Proof.
  intros Hc Hl E.
  assert (Hnop : (r, w') = (Ok tt, w) →
    files w' !! entries_path c = files w !! entries_path c
    ∧ dirs w' = dirs w
    ∧ ∃ new, requests w' = requests w ++ new ∧ Forall (λ q, c ∉ q) new).
  { intros [= -> ->]. split_and!; [done..|]. exists []. by rewrite app_nil_r. }
  destruct (decide (x = c)) as [->|Hne].
  { apply Hnop. rewrite <- E. by apply ensure_cached_hit. }
  destruct (ensure_cached_cases x w) as [E'|E']; rewrite E' in E; [by apply Hnop|].
  clear Hnop E'. unfold fetch_and_save in E.
  assert (Hq : Forall (λ q : list string, c ∉ q) [[x]]).
  { constructor; [|done]. rewrite list_elem_of_singleton. congruence. }
  assert (entries_path x ≠ entries_path c) by (intros ?%entries_path_inj; done).
  destruct (mpr_get_pourbaix_entries _ _) as [es|e].
  - unfold save_pourbaix_entries, open_write in E.
    repeat case_match; injection E as <- <-; world_simpl;
      rewrite ?lookup_insert_ne by done; eauto.
  - injection E as <- <-. world_simpl. eauto.
Qed.

Lemma compounds_entries_to_disk_frame (cs : list string) (c : string)
    (w w' : world) (r : result unit) :
  has_magic c = false → lexists w (entries_path c) = true →
  compounds_entries_to_disk cs w = (r, w') →
  files w' !! entries_path c = files w !! entries_path c
  ∧ dirs w' = dirs w
  ∧ ∃ new, requests w' = requests w ++ new ∧ Forall (λ q, c ∉ q) new.
Proof.
  intros Hc. revert w. induction cs as [|x cs IH]; intros w Hl E.
  { injection E as <- <-. split_and!; [done..|]. exists []. by rewrite app_nil_r. }
  unfold compounds_entries_to_disk in E. cbn [for_each] in E. unfold bind in E.
  destruct (ensure_cached x w) as [r1 w1] eqn:E1.
  destruct (ensure_cached_frame c x w w1 r1 Hc Hl E1) as (Hf & Hd & new1 & Hr & Hn).
  destruct r1 as [[]|e].
  2:{ injection E as <- <-. split_and!; [done..|]. by exists new1. }
  destruct (IH w1) as (Hf' & Hd' & new2 & Hr' & Hn'); [|exact E|].
  { rewrite <- Hl. by apply lexists_ext. }
  split_and!; [by rewrite Hf' | by rewrite Hd' |].
  exists (new1 ++ new2). rewrite Hr', Hr, app_assoc. split; [done|].
  by apply Forall_app.
Qed.

(** C2: when the cache file of an element exists, [compounds_entries_to_disk]
    leaves its content as it is and sends no query for that element to the
    remote, whatever else the list holds and however the run ends. *)
Theorem cache_hit_untouched (cs : list string) (c : string) (w : world) :
  has_magic c = false →
  is_Some (files w !! entries_path c) →
  files (compounds_entries_to_disk cs w).2 !! entries_path c
    = files w !! entries_path c
  ∧ ∃ new, requests (compounds_entries_to_disk cs w).2 = requests w ++ new
           ∧ Forall (λ q, c ∉ q) new.
Proof.
  intros Hc Hf.
  destruct (compounds_entries_to_disk cs w) as [r w'] eqn:E.
  destruct (compounds_entries_to_disk_frame cs c w w' r Hc) as (? & _ & ?);
    [|done..].
  unfold lexists. apply bool_decide_eq_true. by left.
Qed.

Lemma lexists_false (w : world) (p : string) :
  lexists w p = false ↔ files w !! p = None ∧ p ∉ dirs w.
Proof.
  unfold lexists. rewrite bool_decide_eq_false, eq_None_not_Some. tauto.
Qed.

Lemma lexists_mono (w w1 : world) (p : string) :
  dirs w1 = dirs w → files w ⊆ files w1 →
  lexists w p = true → lexists w1 p = true.
Proof.
  unfold lexists. intros Hd Hf. rewrite !bool_decide_eq_true, Hd.
  intros [[v Hv]|?]; [left|by right]. exists v. by eapply lookup_weaken.
Qed.

Lemma writable_ext (w w1 : world) (p : string) :
  dirs w1 = dirs w → writable w1 p = writable w p.
Proof. unfold writable, is_dir. by intros ->. Qed.

Lemma ready_mono (w w1 : world) (x : string) :
  dirs w1 = dirs w → api_key w1 = api_key w → files w ⊆ files w1 →
  ready w x → ready w1 x.
Proof.
  intros Hd Hk Hf [H|[H1 H2]]; [left; by eapply lexists_mono|].
  right. rewrite Hk. split; [done|]. by rewrite (writable_ext w w1).
Qed.

(** What a complete run of the loop leaves behind. *)
Lemma compounds_entries_to_disk_total (cs : list string) (w : world) :
  Forall (λ x, has_magic x = false) cs →
  Forall (ready w) cs →
  ∃ w',
    compounds_entries_to_disk cs w = (Ok tt, w')
    ∧ dirs w' = dirs w
    ∧ api_key w' = api_key w
    ∧ files w ⊆ files w'
    ∧ (∀ p, files w !! p = None → is_Some (files w' !! p) →
         ∃ x, x ∈ cs ∧ p = entries_path x ∧ lexists w p = false)
    ∧ (∀ x es, x ∈ cs → lexists w (entries_path x) = false →
         mpr_get_pourbaix_entries (api_key w) [x] = Ok es →
         files w' !! entries_path x = Some (json_dumps (map as_dict es))).
Proof.
  intros Hplain. revert w.
  induction Hplain as [|x cs Hx _ IH]; intros w Hready.
  { exists w. split_and!; try done.
    - intros p Hp [v Hv]. by rewrite Hp in Hv.
    - intros x es Hin. by apply elem_of_nil in Hin. }
  apply Forall_cons in Hready as [Hrx Hrcs].
  unfold compounds_entries_to_disk. cbn [for_each].
  fold (compounds_entries_to_disk cs).
  destruct (lexists w (entries_path x)) eqn:Hl.
  - (* hit *)
    destruct (IH w Hrcs) as (w' & Hrun & Hd & Hk & Hsub & Hnew & Hcont).
    exists w'. erewrite bind_ok; [|by apply ensure_cached_hit].
    split_and!; try done.
    + intros p Hp Hs. destruct (Hnew p Hp Hs) as (y & ? & ? & ?).
      exists y. split_and!; [by right|done..].
    + intros y es [->|Hin]%elem_of_cons Hy; [by rewrite Hl in Hy|].
      by apply Hcont.
  - (* miss *)
    destruct Hrx as [Hrx|[[es Hes] Hw]]; [by rewrite Hl in Hrx|].
    pose proof (proj1 (lexists_false _ _) Hl) as [Hnone Hnd].
    pose (w1 := set_files (<[entries_path x := json_dumps (map as_dict es)]>
                            (files w)) (queried x w)).
    assert (Hstep : ensure_cached x w = (Ok tt, w1)).
    { rewrite ensure_cached_miss by done. unfold fetch_and_save. rewrite Hes.
      rewrite save_ok; [done|]. by rewrite (writable_ext w (queried x w)). }
    assert (Hk1 : api_key w1 = api_key w) by apply api_key_queried.
    assert (Hd1 : dirs w1 = dirs w) by done.
    assert (Hf1 : files w1 = <[entries_path x := json_dumps (map as_dict es)]>
                               (files w)) by done.
    assert (Hs1 : files w ⊆ files w1) by (rewrite Hf1; by apply insert_subseteq).
    clearbody w1.
    destruct (IH w1) as (w' & Hrun & Hd & Hk & Hsub & Hnew & Hcont).
    { eapply Forall_impl; [exact Hrcs|]. intros y. by apply ready_mono. }
    exists w'. erewrite bind_ok; [|exact Hstep].
    split_and!; [done|by rewrite Hd|by rewrite Hk|by transitivity (files w1)|..].
    + intros p Hp Hs.
      destruct (decide (p = entries_path x)) as [->|Hne].
      { exists x. split_and!; [by left|done..]. }
      destruct (Hnew p) as (y & ? & ? & Hy); [|done|].
      { by rewrite Hf1, lookup_insert_ne. }
      exists y. split_and!; [by right|done|].
      destruct (lexists w p) eqn:Hlp; [|done].
      rewrite <- Hy. symmetry. by apply (lexists_mono w w1).
    + intros y es' Hin Hy Hes'.
      destruct (decide (y = x)) as [->|Hne].
      { rewrite Hes in Hes'. injection Hes' as <-.
        eapply lookup_weaken; [|exact Hsub].
        by rewrite Hf1, lookup_insert_eq. }
      apply elem_of_cons in Hin as [?|Hin]; [done|].
      apply Hcont; [done| |by rewrite Hk1].
      apply lexists_false in Hy as [Hy1 Hy2]. apply lexists_false.
      rewrite Hf1, Hd1. split; [|done].
      rewrite lookup_insert_ne; [done|]. by intros ?%entries_path_inj.
Qed.


End Cache.

(** ** Dictionaries *)

Section Dict.
Context {V : Type}.
Implicit Types (d : dict V) (k x : string) (v : V) (l : list string).

Lemma dict_keys_set k v d :
  dict_keys (dict_set k v d)
  = if decide (k ∈ dict_keys d) then dict_keys d else dict_keys d ++ [k].
Proof.
  unfold dict_keys. induction d as [|[k' v'] d IH]; [done|].
  cbn. destruct (String.eqb_spec k k') as [->|Hne].
  - rewrite decide_True; [done|]. by left.
  - cbn. rewrite IH. destruct (decide (k ∈ d.*1)) as [Hin|Hnin].
    + rewrite decide_True; [done|]. by right.
    + rewrite decide_False; [done|]. by intros [?|?]%elem_of_cons.
Qed.

Lemma dict_values_set_const k v d :
  Forall (λ y, y = v) (dict_values d) →
  Forall (λ y, y = v) (dict_values (dict_set k v d)).
Proof.
  unfold dict_values. induction d as [|[k' v'] d IH]; cbn.
  - by repeat constructor.
  - intros [? ?]%Forall_cons. destruct (String.eqb k k'); cbn.
    + by constructor.
    + constructor; [done|]. by apply IH.
Qed.

Lemma dict_get_set_eq k v d : dict_get k (dict_set k v d) = Some v.
Proof.
  induction d as [|[k' v'] d IH]; cbn; [by rewrite String.eqb_refl|].
  destruct (String.eqb k k') eqn:E; cbn.
  - by rewrite String.eqb_refl.
  - by rewrite E.
Qed.

Lemma dict_get_set_ne k x v d :
  x ≠ k → dict_get x (dict_set k v d) = dict_get x d.
Proof.
  intros Hne. induction d as [|[k' v'] d IH]; cbn.
  - by apply String.eqb_neq in Hne as ->.
  - destruct (String.eqb_spec k k') as [->|?]; cbn.
    + by apply String.eqb_neq in Hne as ->.
    + by rewrite IH.
Qed.

(** The dictionary built by [{x: v for x in l}] on top of [d]. *)
Lemma fold_dict_set_keys v l d :
  NoDup (dict_keys d) →
  NoDup (dict_keys (fold_left (λ d x, dict_set x v d) l d))
  ∧ ∀ x, x ∈ dict_keys (fold_left (λ d x, dict_set x v d) l d)
         ↔ x ∈ dict_keys d ∨ x ∈ l.
Proof.
  revert d. induction l as [|y l IH]; intros d Hd; cbn [fold_left].
  { split; [done|]. intros x. rewrite elem_of_nil. tauto. }
  destruct (IH (dict_set y v d)) as [Hnd Hin].
  { rewrite dict_keys_set. case_decide; [done|].
    apply NoDup_app. split_and!; [done| |by apply NoDup_singleton].
    intros x ? ->%list_elem_of_singleton. done. }
  split; [done|]. intros x. rewrite Hin, dict_keys_set, elem_of_cons.
  case_decide; [|rewrite elem_of_app, list_elem_of_singleton];
    intuition congruence.
Qed.

Lemma fold_dict_set_keys_fresh v l d :
  NoDup (dict_keys d ++ l) →
  dict_keys (fold_left (λ d x, dict_set x v d) l d) = dict_keys d ++ l.
Proof.
  revert d. induction l as [|y l IH]; intros d Hd; cbn [fold_left].
  { by rewrite app_nil_r. }
  assert (Hy : y ∉ dict_keys d).
  { apply NoDup_app in Hd as (_ & Hd & _). intros ?. eapply Hd; [done|]. by left. }
  rewrite IH; rewrite dict_keys_set, decide_False by done.
  - by rewrite <- app_assoc.
  - by rewrite <- app_assoc.
Qed.

Lemma fold_dict_set_values v l d :
  Forall (λ y, y = v) (dict_values d) →
  Forall (λ y, y = v) (dict_values (fold_left (λ d x, dict_set x v d) l d)).
Proof.
  revert d. induction l as [|y l IH]; intros d Hd; cbn [fold_left]; [done|].
  by apply IH, dict_values_set_const.
Qed.

Lemma fold_dict_set_get v l d x :
  x ∈ l ∨ dict_get x d = Some v →
  dict_get x (fold_left (λ d x, dict_set x v d) l d) = Some v.
Proof.
  revert d. induction l as [|y l IH]; intros d Hx; cbn [fold_left].
  { destruct Hx as [Hx|Hx]; [by apply elem_of_nil in Hx|done]. }
  apply IH. destruct (decide (x = y)) as [->|Hne].
  - right. apply dict_get_set_eq.
  - rewrite dict_get_set_ne by done.
    destruct Hx as [[?|?]%elem_of_cons|?]; auto; done.
Qed.

Lemma Forall_eq_replicate (v : V) (vs : list V) :
  Forall (λ y, y = v) vs → vs = replicate (length vs) v.
Proof. induction 1 as [|y vs -> _ IH]; cbn; [done|]. by rewrite <- IH. Qed.

(** [{x: v for x in l}]: one key per distinct element of [l], all mapped
    to [v]. *)
Lemma dict_comprehension_const v l :
  let d := dict_comprehension (λ _, v) l in
  NoDup (dict_keys d)
  ∧ (∀ x, x ∈ dict_keys d ↔ x ∈ l)
  ∧ (∀ x, x ∈ l → dict_get x d = Some v)
  ∧ length d = distinct l
  ∧ dict_values d = replicate (distinct l) v
  ∧ (NoDup l → dict_keys d = l).
Proof.
  cbn. unfold dict_comprehension.
  destruct (fold_dict_set_keys v l []) as [Hnd Hin]; [constructor|].
  assert (Hlen : length (fold_left (λ d x, dict_set x v d) l []) = distinct l).
  { unfold distinct. rewrite <- (length_fmap fst). apply Permutation_length.
    apply NoDup_Permutation; [done|apply NoDup_remove_dups|].
    intros x. unfold dict_keys in Hin. rewrite Hin, elem_of_remove_dups, elem_of_nil.
    tauto. }
  split_and!; [done| |..].
  - intros x. rewrite Hin. unfold dict_keys. cbn. rewrite elem_of_nil. tauto.
  - intros x Hx. apply fold_dict_set_get. by left.
  - done.
  - rewrite <- Hlen, <- (length_fmap snd). apply Forall_eq_replicate.
    apply fold_dict_set_values. constructor.
  - intros Hl. by apply (fold_dict_set_keys_fresh v l []).
Qed.

End Dict.


(** ** Rational sums *)





(** ** The orchestrator *)

Section Orchestrator.
Context {L : PourbaixLib}.

Lemma make_dicts_many (cs : list string) (w : world) :
  (2 ≤ length cs)%nat →
  make_dicts cs w
  = (Ok (dict_comprehension (λ _, 1 / inject_Z (Z.of_nat (length cs)))%Q cs,
         dict_comprehension (λ _, ion_concentration) cs), w).
Proof.
  intros Hn. unfold make_dicts.
  by replace (1 <? length cs)%nat with true by (symmetry; apply Nat.ltb_lt; lia).
Qed.

Lemma make_dicts_single (c : string) (w : world) :
  make_dicts [c] w = (Ok ([(c, 1%Q)], [(c, ion_concentration)]), w).
Proof. reflexivity. Qed.

Lemma make_dicts_cases (cs : list string) :
  cs ≠ [] → (∃ c, cs = [c]) ∨ (2 ≤ length cs)%nat.
Proof. destruct cs as [|c [|c' cs]]; [done|eauto|]. right. cbn. lia. Qed.


(** C5: for every non-empty list the concentration map has the listed
    elements as keys and maps each of them to [1e-8], with one element
    as with several. *)
Theorem concentration_map (cs : list string) (w : world) :
  cs ≠ [] →
  ∃ comp conc,
    make_dicts cs w = (Ok (comp, conc), w)
    ∧ (∀ c, c ∈ dict_keys conc ↔ c ∈ cs)
    ∧ (∀ c, c ∈ cs → dict_get c conc = Some ion_concentration)
    ∧ Forall (λ v, v = ion_concentration) (dict_values conc)
    ∧ (ion_concentration * inject_Z (10 ^ 8) == 1)%Q.
Proof.
  intros [[c ->]|Hn]%make_dicts_cases.
  { eexists _, _. split; [apply make_dicts_single|].
    split_and!; [|intros c' ->%list_elem_of_singleton; cbn;
                  by rewrite String.eqb_refl|by repeat constructor|done].
    intros c'. unfold dict_keys. cbn. done. }
  eexists _, _. split; [by apply make_dicts_many|].
  destruct (dict_comprehension_const ion_concentration cs)
    as (_ & Hk & Hg & _ & Hv & _).
  split_and!; [done..| |done].
  rewrite Hv. by apply Forall_replicate.
Qed.


(** C6: on the empty list [main] prints its message and returns 1;
    files, directories, the environment, the requests sent to the remote
    and the viewer are as before. *)
Theorem empty_list_exit_status (w : world) :
  main_with [] w
  = (Ok 1%Z,
     set_stdout (stdout w ++ ["Add at least one element to the compounds list!"]) w)
  ∧ main w = main_with [] w
  ∧ files (main w).2 = files w
  ∧ dirs (main w).2 = dirs w
  ∧ requests (main w).2 = requests w
  ∧ environ (main w).2 = environ w
  ∧ shown (main w).2 = shown w.
Proof. by split_and!. Qed.

End Orchestrator.

(** ** The plot renderer and the two directories *)

Section Plot.
Context {L : PourbaixLib}.

(** C8: when the diagram builds and renders and the file can be written,
    [plot_pourbaix_diagram] saves the image under the diagrams directory,
    named by the identifiers joined in list order plus [.png], and shows
    it.  The identifiers go into the name as they are: iron and oxygen give
    [FeO.png], and so does any other list with the same concatenation. *)
Theorem diagram_file_name (cs : list string) (es : list Entry)
    (comp conc : dict Q) (w : world) (pbx : Diagram) (png : string) :
  PourbaixDiagram es comp conc true = Ok pbx →
  render_png pbx (figure_options 20) = Ok png →
  writable w (DIAGRAMS_DIR +:+ "/" +:+ String.concat EmptyString cs +:+ ".png")
    = true →
  plot_pourbaix_diagram cs es comp conc w
  = (Ok tt,
     set_shown (S (shown w))
       (set_files
          (<[DIAGRAMS_DIR +:+ "/" +:+ String.concat EmptyString cs +:+ ".png"
             := png]> (files w)) w))
  ∧ diagram_path (String.concat EmptyString ["Fe"; "O"])
    = "pourbaix_diagrams/FeO.png"
  ∧ diagram_path (String.concat EmptyString ["F"; "eO"])
    = diagram_path (String.concat EmptyString ["Fe"; "O"]).
Proof.
  intros Hd Hr Hw. split; [|done].
  unfold plot_pourbaix_diagram.
  erewrite bind_ok; [|unfold lift; by rewrite Hd].
  erewrite bind_ok; [|unfold lift; by rewrite Hr].
  erewrite bind_ok; [|by apply open_write_ok]. done.
Qed.

Lemma keeps_dirs_ret {A} (a : A) : keeps_dirs (ret a).
Proof. done. Qed.

Lemma keeps_dirs_lift {A} (r : result A) : keeps_dirs (lift r).
Proof. done. Qed.

Lemma keeps_dirs_bind {A B} (m : M A) (k : A → M B) :
  keeps_dirs m → (∀ a, keeps_dirs (k a)) → keeps_dirs (bind m k).
Proof.
  intros Hm Hk w. unfold bind. specialize (Hm w).
  destruct (m w) as [[a|e] w1]; [|done]. rewrite <- Hm. apply Hk.
Qed.

Lemma keeps_dirs_open_write (path content : string) :
  keeps_dirs (open_write path content).
Proof. intros w. apply open_write_dirs. Qed.

Lemma keeps_dirs_open_read (path : string) : keeps_dirs (open_read path).
Proof. intros w. unfold open_read. by repeat case_match. Qed.

Lemma keeps_dirs_for_each {A} (l : list A) (body : A → M unit) :
  (∀ x, keeps_dirs (body x)) → keeps_dirs (for_each l body).
Proof.
  intros Hb. induction l as [|x l IH]; [done|].
  cbn [for_each]. by apply keeps_dirs_bind.
Qed.

Lemma keeps_dirs_save (c : string) (es : list Entry) :
  keeps_dirs (save_pourbaix_entries c es).
Proof. apply keeps_dirs_open_write. Qed.

Lemma keeps_dirs_retrieve (c : string) : keeps_dirs (retrieve_pourbaix_entries c).
Proof. intros w. by rewrite retrieve_spec. Qed.

Lemma keeps_dirs_get_stored (c : string) :
  keeps_dirs (get_stored_pourbaix_entries c).
Proof.
  unfold get_stored_pourbaix_entries.
  repeat (apply keeps_dirs_bind; [|intros ?]);
    auto using keeps_dirs_open_read, keeps_dirs_lift, keeps_dirs_ret.
Qed.

Lemma keeps_dirs_ensure_cached (c : string) : keeps_dirs (ensure_cached c).
Proof.
  unfold ensure_cached. apply keeps_dirs_bind; [done|]. intros found.
  destruct (0 <? length found)%nat; [done|].
  apply keeps_dirs_bind; [apply keeps_dirs_retrieve|]. intros es.
  apply keeps_dirs_save.
Qed.

Lemma keeps_dirs_to_disk (cs : list string) :
  keeps_dirs (compounds_entries_to_disk cs).
Proof. apply keeps_dirs_for_each, keeps_dirs_ensure_cached. Qed.

Lemma keeps_dirs_load_all (cs : list string) (acc : list Entry) :
  keeps_dirs (load_all_entries cs acc).
Proof.
  revert acc. induction cs as [|c cs IH]; intros acc; [done|].
  cbn [load_all_entries]. apply keeps_dirs_bind; [apply keeps_dirs_get_stored|].
  intros es. apply IH.
Qed.

Lemma keeps_dirs_make_dicts (cs : list string) : keeps_dirs (make_dicts cs).
Proof. intros w. unfold make_dicts. by repeat case_match. Qed.

Lemma keeps_dirs_plot (cs : list string) (es : list Entry) (comp conc : dict Q) :
  keeps_dirs (plot_pourbaix_diagram cs es comp conc).
Proof.
  unfold plot_pourbaix_diagram.
  apply keeps_dirs_bind; [apply keeps_dirs_lift|]. intros pbx.
  apply keeps_dirs_bind; [apply keeps_dirs_lift|]. intros png.
  apply keeps_dirs_bind; [apply keeps_dirs_open_write|]. by intros [].
Qed.

Lemma keeps_dirs_main (cs : list string) : keeps_dirs (main_with cs).
Proof.
  unfold main_with. destruct (length cs =? 0)%nat; [done|].
  apply keeps_dirs_bind; [apply keeps_dirs_to_disk|]. intros _.
  apply keeps_dirs_bind; [apply keeps_dirs_load_all|]. intros es.
  apply keeps_dirs_bind; [apply keeps_dirs_make_dicts|]. intros dcts.
  apply keeps_dirs_bind; [apply keeps_dirs_plot|]. done.
Qed.

(** C10: no part of the program creates a directory.  Without the cache
    directory, saving entries raises a file-not-found error and leaves
    nothing behind, while the presence check reports a miss without any
    error, so that a run that has to fetch ends in that error; without the
    diagrams directory, saving the image raises a file-not-found error once
    the diagram has been built. *)
Theorem directories_must_exist (cs : list string) (c : string)
    (es : list Entry) (comp conc : dict Q) (w : world) :
  (dirs (main_with cs w).2 = dirs w
   ∧ dirs (compounds_entries_to_disk cs w).2 = dirs w
   ∧ dirs (save_pourbaix_entries c es w).2 = dirs w
   ∧ dirs (plot_pourbaix_diagram cs es comp conc w).2 = dirs w)
  ∧ (JSON_ENTRIES_DIR ∉ dirs w →
       save_pourbaix_entries c es w
         = (Raise (FileNotFoundError (entries_path c)), w)
       ∧ (wf_world w → has_magic c = false →
            glob (entries_path c) w = (Ok [], w)))
  ∧ (JSON_ENTRIES_DIR ∉ dirs w → wf_world w → has_magic c = false →
       is_Ok (mpr_get_pourbaix_entries (api_key w) [c]) →
       (main_with [c] w).1 = Raise (FileNotFoundError (entries_path c)))
  ∧ (DIAGRAMS_DIR ∉ dirs w →
       is_Ok (PourbaixDiagram es comp conc true) →
       (∀ pbx, is_Ok (render_png pbx (figure_options 20))) →
       plot_pourbaix_diagram cs es comp conc w
         = (Raise (FileNotFoundError
                     (diagram_path (String.concat EmptyString cs))), w)).
Proof.
  split_and!.
  - apply keeps_dirs_main.
  - apply keeps_dirs_to_disk.
  - apply keeps_dirs_save.
  - apply keeps_dirs_plot.
  - intros Hno.
    assert (Hanc : forallb (is_dir w) (ancestors EmptyString (entries_path c))
                   = false).
    { rewrite ancestors_entries_path. cbn [forallb].
      by rewrite is_dir_absent. }
    split; [by apply open_write_missing_dir|].
    intros Hwf Hc. unfold glob. rewrite entries_path_magic, Hc.
    destruct (lexists w (entries_path c)) eqn:Hl; [|done].
    apply Hwf in Hl. by rewrite Hanc in Hl.
  - intros Hno Hwf Hc [es' Hes].
    assert (Hl : lexists w (entries_path c) = false).
    { destruct (lexists w (entries_path c)) eqn:Hl; [|done].
      apply Hwf in Hl. rewrite ancestors_entries_path in Hl. cbn [forallb] in Hl.
      by rewrite is_dir_absent in Hl. }
    unfold main_with. cbn [length Nat.eqb].
    erewrite bind_raise; [done|].
    unfold compounds_entries_to_disk. cbn [for_each].
    erewrite bind_raise; [done|].
    rewrite ensure_cached_miss by done. unfold fetch_and_save. rewrite Hes.
    unfold save_pourbaix_entries. rewrite open_write_missing_dir; [done|].
    rewrite ancestors_entries_path. cbn [forallb].
    by rewrite is_dir_absent.
  - intros Hno [pbx Hd] Hr. destruct (Hr pbx) as [png Hpng].
    unfold plot_pourbaix_diagram.
    erewrite bind_ok; [|unfold lift; by rewrite Hd].
    erewrite bind_ok; [|unfold lift; by rewrite Hpng].
    erewrite bind_raise; [done|]. apply open_write_missing_dir.
    rewrite ancestors_diagram_path. cbn [forallb].
    by rewrite is_dir_absent.
Qed.

End Plot.

(** * Further properties of the script *)

(** ** More on the local entry cache *)

Section CacheRuns.
Context {L : PourbaixLib}.

Lemma for_each_app {A} (l1 l2 : list A) (body : A → M unit) (w : world) :
  for_each (l1 ++ l2) body w
  = bind (for_each l1 body) (λ _, for_each l2 body) w.
Proof.
  revert w. induction l1 as [|x l1 IH]; intros w; [done|].
  cbn [app for_each]. unfold bind.
  destruct (body x w) as [[[]|e] w1]; [|done]. by rewrite IH.
Qed.

(** A miss that can be served: the world after the iteration. *)
Lemma ensure_cached_miss_step (x : string) (es : list Entry) (w : world) :
  has_magic x = false →
  lexists w (entries_path x) = false →
  mpr_get_pourbaix_entries (api_key w) [x] = Ok es →
  writable w (entries_path x) = true →
  ∃ w1,
    ensure_cached x w = (Ok tt, w1)
    ∧ dirs w1 = dirs w
    ∧ api_key w1 = api_key w
    ∧ files w1 = <[entries_path x := json_dumps (map as_dict es)]> (files w)
    ∧ requests w1 = requests w ++ [[x]].
Proof.
  intros Hx Hl Hes Hw.
  exists (set_files (<[entries_path x := json_dumps (map as_dict es)]> (files w))
            (queried x w)).
  split_and!; [|done|apply api_key_queried|done..].
  rewrite ensure_cached_miss by done. unfold fetch_and_save. rewrite Hes.
  rewrite save_ok; [done|]. by rewrite (writable_ext w (queried x w)).
Qed.

(** With everything cached the loop does nothing at all. *)
Lemma all_cached_noop (cs : list string) (w : world) :
  Forall (λ x, has_magic x = false) cs →
  Forall (λ x, lexists w (entries_path x) = true) cs →
  compounds_entries_to_disk cs w = (Ok tt, w).
Proof.
  induction 1 as [|x cs Hx _ IH]; intros Hall; [done|].
  apply Forall_cons in Hall as [Hl Hall].
  unfold compounds_entries_to_disk. cbn [for_each].
  erewrite bind_ok; [|by apply ensure_cached_hit]. by apply IH.
Qed.

(** X1: a complete run leaves every listed element on disk, and running the
    loop again then changes nothing and queries nothing. *)
Theorem second_run_is_noop (cs : list string) (w : world) :
  Forall (λ x, has_magic x = false) cs →
  Forall (ready w) cs →
  ∃ w',
    compounds_entries_to_disk cs w = (Ok tt, w')
    ∧ Forall (λ x, lexists w' (entries_path x) = true) cs
    ∧ compounds_entries_to_disk cs w' = (Ok tt, w').
Proof.
  intros Hplain Hready.
  destruct (compounds_entries_to_disk_total cs w Hplain Hready)
    as (w' & Hrun & Hd & _ & Hsub & _ & Hcont).
  assert (Hall : Forall (λ x, lexists w' (entries_path x) = true) cs).
  { apply Forall_forall. intros x Hx.
    destruct (lexists w (entries_path x)) eqn:Hl.
    - by apply (lexists_mono w w').
    - assert (Hrx : ready w x) by (by eapply Forall_forall in Hready).
      destruct Hrx as [Hrx|[[es Hes] _]]; [by rewrite Hl in Hrx|].
      unfold lexists. apply bool_decide_eq_true. left.
      rewrite (Hcont x es Hx Hl Hes). by eexists. }
  exists w'. split_and!; [done..|]. by apply all_cached_noop.
Qed.

(** X2: in a complete run every listed element that lacks a cache file is
    queried exactly once, also when it is listed several times, and nothing
    else is queried. *)
Theorem each_miss_requested_once (cs : list string) (w : world) :
  Forall (λ x, has_magic x = false) cs →
  Forall (ready w) cs →
  ∃ w' new,
    compounds_entries_to_disk cs w = (Ok tt, w')
    ∧ requests w' = requests w ++ new
    ∧ NoDup new
    ∧ ∀ q, q ∈ new
           ↔ ∃ x, x ∈ cs ∧ q = [x] ∧ lexists w (entries_path x) = false.
Proof.
  intros Hplain. revert w.
  induction Hplain as [|x cs Hx _ IH]; intros w Hready.
  { exists w, []. split_and!; [done|by rewrite app_nil_r|constructor|].
    intros q. split; [by intros ?%elem_of_nil|].
    by intros (y & ?%elem_of_nil & _). }
  apply Forall_cons in Hready as [Hrx Hrcs].
  unfold compounds_entries_to_disk. cbn [for_each].
  fold (compounds_entries_to_disk cs).
  destruct (lexists w (entries_path x)) eqn:Hl.
  - destruct (IH w Hrcs) as (w' & new & Hrun & Hreq & Hnd & Hin).
    exists w', new. erewrite bind_ok; [|by apply ensure_cached_hit].
    split_and!; [done..|]. intros q. rewrite Hin. split.
    + intros (y & ? & ? & ?). exists y. split_and!; [by right|done..].
    + intros (y & [->|?]%elem_of_cons & -> & Hy); [by rewrite Hl in Hy|].
      by exists y.
  - destruct Hrx as [Hrx|[[es Hes] Hw]]; [by rewrite Hl in Hrx|].
    destruct (ensure_cached_miss_step x es w Hx Hl Hes Hw)
      as (w1 & Hstep & Hd1 & Hk1 & Hf1 & Hr1).
    pose proof (proj1 (lexists_false _ _) Hl) as [Hnone _].
    assert (Hs1 : files w ⊆ files w1) by (rewrite Hf1; by apply insert_subseteq).
    assert (Hother : ∀ y, y ≠ x →
              lexists w1 (entries_path y) = lexists w (entries_path y)).
    { intros y Hy. apply lexists_ext; [|done].
      rewrite Hf1, lookup_insert_ne; [done|]. by intros ?%entries_path_inj. }
    assert (Hself : lexists w1 (entries_path x) = true).
    { unfold lexists. apply bool_decide_eq_true. left.
      rewrite Hf1, lookup_insert_eq. by eexists. }
    destruct (IH w1) as (w' & new & Hrun & Hreq & Hnd & Hin).
    { eapply Forall_impl; [exact Hrcs|]. intros y. by apply ready_mono. }
    exists w', ([x] :: new). erewrite bind_ok; [|exact Hstep].
    split_and!; [done|by rewrite Hreq, Hr1, <- app_assoc| |].
    + apply NoDup_cons. split; [|done].
      rewrite Hin. intros (y & _ & [= <-] & Hy). by rewrite Hself in Hy.
    + intros q. rewrite elem_of_cons, Hin. split.
      * intros [->|(y & ? & -> & Hy)]; [exists x; split_and!; [by left|done..]|].
        exists y. split_and!; [by right|done|].
        destruct (decide (y = x)) as [->|Hne]; [done|]. by rewrite <- Hother.
      * intros (y & Hy & -> & Hly).
        destruct (decide (y = x)) as [->|Hne]; [by left|right].
        apply elem_of_cons in Hy as [?|Hy]; [done|].
        exists y. split_and!; [done..|]. by rewrite Hother.
Qed.

(** X3: when the remote refuses an element, the run stops there with that
    error: what the elements before it put on disk stays, the refused
    query is the last one sent, and the rest of the list is not looked
    at. *)
Theorem fetch_failure_stops_run (pre post : list string) (x : string)
    (w w1 : world) (e : exn) :
  compounds_entries_to_disk pre w = (Ok tt, w1) →
  has_magic x = false →
  lexists w1 (entries_path x) = false →
  mpr_get_pourbaix_entries (api_key w1) [x] = Raise e →
  ∃ w',
    compounds_entries_to_disk (pre ++ x :: post) w = (Raise e, w')
    ∧ files w' = files w1
    ∧ requests w' = requests w1 ++ [[x]].
Proof.
  intros Hpre Hx Hl He. exists (queried x w1). split; [|done].
  unfold compounds_entries_to_disk. rewrite for_each_app.
  erewrite bind_ok; [|exact Hpre]. cbn [for_each].
  erewrite bind_raise; [done|].
  rewrite ensure_cached_miss by done. unfold fetch_and_save. by rewrite He.
Qed.

End CacheRuns.

(** ** More on the entry store *)

Section StoreRuns.
Context {L : PourbaixLib}.

Lemma get_stored_world (c : string) (w : world) :
  (get_stored_pourbaix_entries c w).2 = w.
Proof.
  unfold get_stored_pourbaix_entries, bind, open_read, lift, ret.
  destruct (files w !! entries_path c) as [content|]; [|by case_bool_decide].
  destruct (json_loads content) as [ds|e]; [|done].
  by destruct (comprehension from_dict ds).
Qed.

Lemma load_all_entries_world (cs : list string) (acc : list Entry) (w : world) :
  (load_all_entries cs acc w).2 = w.
Proof.
  revert acc. induction cs as [|c cs IH]; intros acc; [done|].
  cbn [load_all_entries]. unfold bind.
  pose proof (get_stored_world c w) as Hw.
  destruct (get_stored_pourbaix_entries c w) as [[es|e] w1]; cbn in Hw; subst w1.
  - apply IH.
  - done.
Qed.

(** X4: every element has a cache file of its own: saving for one element
    and then for another leaves both collections loadable, each from its
    own file. *)
Theorem saves_do_not_interfere (c1 c2 : string) (E1 E2 : list Entry)
    (w : world) :
  c1 ≠ c2 →
  writable w (entries_path c1) = true →
  writable w (entries_path c2) = true →
  valid_collection E1 →
  valid_collection E2 →
  ∃ w1 w2,
    save_pourbaix_entries c1 E1 w = (Ok tt, w1)
    ∧ save_pourbaix_entries c2 E2 w1 = (Ok tt, w2)
    ∧ get_stored_pourbaix_entries c1 w2 = (Ok E1, w2)
    ∧ get_stored_pourbaix_entries c2 w2 = (Ok E2, w2).
Proof.
  intros Hne Hw1 Hw2 HE1 HE2. eexists _, _.
  split; [by apply save_ok|].
  split; [apply save_ok; by rewrite (writable_ext w)|].
  assert (entries_path c2 ≠ entries_path c1) by (by intros ?%entries_path_inj).
  split; (apply get_stored_of_file; [|done]); cbn [files set_files].
  - by rewrite lookup_insert_ne, lookup_insert_eq.
  - by rewrite lookup_insert_eq.
Qed.

End StoreRuns.

(** ** More on the orchestrator and the renderer *)

Section MainRuns.
Context {L : PourbaixLib}.

Lemma fold_dict_set_keys_indep {V V'} (v : V) (v' : V') (l : list string)
    (d : dict V) (d' : dict V') :
  dict_keys d = dict_keys d' →
  dict_keys (fold_left (λ d x, dict_set x v d) l d)
  = dict_keys (fold_left (λ d x, dict_set x v' d) l d').
Proof.
  revert d d'. induction l as [|y l IH]; intros d d' Hk; [done|].
  cbn [fold_left]. apply IH. by rewrite !dict_keys_set, Hk.
Qed.

(** X5: the composition map and the concentration map have the same keys
    in the same order, and every listed element is a key of both; the
    builder of the maps fails, with an index error, on the empty list
    only. *)
Theorem maps_share_keys (cs : list string) (w : world) :
  (cs = [] → make_dicts cs w = (Raise IndexError, w))
  ∧ (cs ≠ [] →
       ∃ comp conc,
         make_dicts cs w = (Ok (comp, conc), w)
         ∧ dict_keys comp = dict_keys conc
         ∧ ∀ c, c ∈ cs →
                is_Some (dict_get c comp) ∧ is_Some (dict_get c conc)).
Proof.
  split; [by intros ->|].
  intros [[c ->]|Hn]%make_dicts_cases.
  { eexists _, _. split; [apply make_dicts_single|]. split; [done|].
    intros c' ->%list_elem_of_singleton. cbn. rewrite String.eqb_refl.
    by split; eexists. }
  eexists _, _. split; [by apply make_dicts_many|].
  split; [unfold dict_comprehension; by apply fold_dict_set_keys_indep|].
  intros c Hc.
  destruct (dict_comprehension_const
              (1 / inject_Z (Z.of_nat (length cs)))%Q cs)
    as (_ & _ & Hg1 & _).
  destruct (dict_comprehension_const ion_concentration cs)
    as (_ & _ & Hg2 & _).
  rewrite (Hg1 c Hc), (Hg2 c Hc). by split; eexists.
Qed.

Lemma paths_differ (f c : string) : diagram_path f ≠ entries_path c.
Proof.
  unfold diagram_path, entries_path, DIAGRAMS_DIR, JSON_ENTRIES_DIR.
  intros H. apply (f_equal (String.get 9)) in H. vm_compute in H.
  discriminate H.
Qed.

(** The renderer either saves and shows, or raises and changes nothing. *)
Lemma plot_cases (cs : list string) (es : list Entry) (comp conc : dict Q)
    (w : world) :
  (∃ png,
     plot_pourbaix_diagram cs es comp conc w
     = (Ok tt,
        set_shown (S (shown w))
          (set_files
             (<[diagram_path (String.concat EmptyString cs) := png]> (files w))
             w)))
  ∨ (∃ e, plot_pourbaix_diagram cs es comp conc w = (Raise e, w)).
Proof.
  unfold plot_pourbaix_diagram, bind, lift, open_write, plt_show.
  destruct (PourbaixDiagram es comp conc true) as [pbx|e]; [|right; by eexists].
  destruct (render_png pbx _) as [png|e]; [|right; by eexists].
  repeat case_match; simplify_eq; eauto.
Qed.

(** X6: [plot_pourbaix_diagram] shows the figure only once it has saved
    it: either the image is written under its name and the viewer opens
    once, or the call raises (the diagram cannot be built or drawn, or the
    file cannot be opened) and then no file has changed and nothing was
    shown.  In both cases every file other than the image is as before and
    the remote is not queried. *)
Theorem plot_saves_before_showing (cs : list string) (es : list Entry)
    (comp conc : dict Q) (w : world) :
  ((plot_pourbaix_diagram cs es comp conc w).1 = Ok tt
   ∧ is_Some (files (plot_pourbaix_diagram cs es comp conc w).2
              !! diagram_path (String.concat EmptyString cs))
   ∧ shown (plot_pourbaix_diagram cs es comp conc w).2 = S (shown w)
   ∨ (∃ e, plot_pourbaix_diagram cs es comp conc w = (Raise e, w)))
  ∧ (∀ p, p ≠ diagram_path (String.concat EmptyString cs) →
          files (plot_pourbaix_diagram cs es comp conc w).2 !! p = files w !! p)
  ∧ requests (plot_pourbaix_diagram cs es comp conc w).2 = requests w.
Proof.
  destruct (plot_cases cs es comp conc w) as [[png E]|[e E]]; rewrite E.
  - split_and!; [left|..]; cbn [fst snd files shown requests set_shown set_files].
    + split_and!; [done| |done]. rewrite lookup_insert_eq. by eexists.
    + intros p Hp. by rewrite lookup_insert_ne.
    + done.
  - split_and!; [right; by eexists|done..].
Qed.

(** The cache loop prints nothing and shows nothing, however it ends. *)
Lemma compounds_entries_to_disk_quiet (cs : list string) (w w' : world)
    (r : result unit) :
  compounds_entries_to_disk cs w = (r, w') →
  stdout w' = stdout w ∧ shown w' = shown w.
Proof.
  revert w. induction cs as [|x cs IH]; intros w E.
  { by injection E as <- <-. }
  unfold compounds_entries_to_disk in E. cbn [for_each] in E.
  unfold bind in E.
  assert (Hx : stdout (ensure_cached x w).2 = stdout w
               ∧ shown (ensure_cached x w).2 = shown w).
  { destruct (ensure_cached_cases x w) as [E0|E0]; rewrite E0; [done|].
    unfold fetch_and_save.
    destruct (mpr_get_pourbaix_entries _ _); [|done].
    unfold save_pourbaix_entries, open_write. by repeat case_match. }
  destruct (ensure_cached x w) as [[[]|e] w0]; cbn [snd] in Hx.
  - destruct (IH w0 E) as [-> ->]. done.
  - by injection E as <- <-.
Qed.

(** X7: a normal return of [main] is 1 for the empty list and 0 for any
    other; in the second case the figure has been shown exactly once and
    nothing was printed. *)
Theorem exit_status_of_main (cs : list string) (w w' : world) (n : Z) :
  main_with cs w = (Ok n, w') →
  (cs = [] ∧ n = 1%Z)
  ∨ (cs ≠ [] ∧ n = 0%Z ∧ stdout w' = stdout w ∧ shown w' = S (shown w)).
Proof.
  unfold main_with. destruct cs as [|c cs]; [intros [= <- _]; by left|].
  cbn [length Nat.eqb]. intros H. right. split; [done|].
  unfold bind in H.
  destruct (compounds_entries_to_disk (c :: cs) w) as [[[]|e] w1] eqn:E1;
    [|done].
  apply compounds_entries_to_disk_quiet in E1 as [Hout Hshown].
  pose proof (load_all_entries_world (c :: cs) [] w1) as Hw2.
  destruct (load_all_entries (c :: cs) [] w1) as [[es|e] w2]; [|done].
  cbn in Hw2. subst w2.
  destruct (make_dicts (c :: cs) w1) as [[dcts|e] w3] eqn:E3; [|done].
  assert (w3 = w1) as ->.
  { unfold make_dicts, ret, raise in E3. by repeat case_match; simplify_eq. }
  destruct (plot_cases (c :: cs) es dcts.1 dcts.2 w1) as [[png E]|[e E]];
    rewrite E in H; [|done].
  injection H as <- <-.
  cbn [stdout shown set_shown set_files]. by rewrite Hout, Hshown.
Qed.

(** X8: a whole run of [main] never rewrites a cache file that was there
    when it started, and never queries the remote for its element: the
    only other file [main] writes is the image, whose path is no cache
    path. *)
Theorem main_keeps_cache_files (cs : list string) (c : string) (w : world) :
  has_magic c = false →
  is_Some (files w !! entries_path c) →
  files (main_with cs w).2 !! entries_path c = files w !! entries_path c
  ∧ ∃ new, requests (main_with cs w).2 = requests w ++ new
           ∧ Forall (λ q, c ∉ q) new.
Proof.
  intros Hc Hf.
  assert (Hl : lexists w (entries_path c) = true).
  { unfold lexists. apply bool_decide_eq_true. by left. }
  unfold main_with. destruct cs as [|x cs].
  { cbn. split; [done|]. exists []. by rewrite app_nil_r. }
  cbn [length Nat.eqb]. unfold bind.
  destruct (compounds_entries_to_disk (x :: cs) w) as [r1 w1] eqn:E1.
  destruct (compounds_entries_to_disk_frame _ c w w1 r1 Hc Hl E1)
    as (Hf1 & _ & new & Hr1 & Hnew).
  destruct r1 as [[]|e]; [|cbn; eauto].
  pose proof (load_all_entries_world (x :: cs) [] w1) as Hw2.
  destruct (load_all_entries (x :: cs) [] w1) as [[es|e] w2];
    cbn in Hw2; subst w2; [|cbn; eauto].
  destruct (make_dicts (x :: cs) w1) as [[dcts|e] w3] eqn:E3.
  2:{ assert (w3 = w1) as ->; [|cbn; eauto].
      unfold make_dicts, ret, raise in E3. by repeat case_match; simplify_eq. }
  assert (w3 = w1) as ->.
  { unfold make_dicts, ret, raise in E3. by repeat case_match; simplify_eq. }
  destruct (plot_cases (x :: cs) es dcts.1 dcts.2 w1) as [[png E]|[e E]];
    rewrite E; unfold ret;
    cbn [fst snd files requests set_shown set_files]; [|eauto].
  split; [|eauto]. rewrite lookup_insert_ne; [done|]. apply paths_differ.
Qed.


Lemma ensure_cached_writes_only (x p : string) (w : world) :
  p ≠ entries_path x →
  files (ensure_cached x w).2 !! p = files w !! p.
Proof.
  intros Hp. destruct (ensure_cached_cases x w) as [E|E]; rewrite E; [done|].
  unfold fetch_and_save. destruct (mpr_get_pourbaix_entries _ _); [|done].
  unfold save_pourbaix_entries, open_write.
  repeat case_match; cbn [snd files set_files queried set_requests set_environ];
    rewrite ?lookup_insert_ne by done; done.
Qed.

Lemma compounds_entries_to_disk_writes_only (cs : list string) (p : string)
    (w : world) :
  (∀ x, x ∈ cs → p ≠ entries_path x) →
  files (compounds_entries_to_disk cs w).2 !! p = files w !! p.
Proof.
  revert w. induction cs as [|x cs IH]; intros w Hp; [done|].
  unfold compounds_entries_to_disk. cbn [for_each]. unfold bind.
  pose proof (ensure_cached_writes_only x p w) as Hx.
  destruct (ensure_cached x w) as [[[]|e] w1]; cbn [snd] in Hx.
  - fold (compounds_entries_to_disk cs w1). rewrite IH.
    + apply Hx, Hp. by left.
    + intros y Hy. apply Hp. by right.
  - apply Hx, Hp. by left.
Qed.

(** X10: [main] writes nowhere but to the cache files of the listed
    elements and to the image: every other file is after the run, however
    it ends, what it was before. *)
Theorem main_writes_only_its_files (cs : list string) (p : string) (w : world) :
  (∀ x, x ∈ cs → p ≠ entries_path x) →
  p ≠ diagram_path (String.concat EmptyString cs) →
  files (main_with cs w).2 !! p = files w !! p.
Proof.
  intros Hcache Himg. unfold main_with. destruct cs as [|x cs]; [done|].
  cbn [length Nat.eqb]. unfold bind.
  pose proof (compounds_entries_to_disk_writes_only (x :: cs) p w Hcache) as H1.
  destruct (compounds_entries_to_disk (x :: cs) w) as [[[]|e] w1];
    cbn [snd] in H1; [|done].
  pose proof (load_all_entries_world (x :: cs) [] w1) as Hw2.
  destruct (load_all_entries (x :: cs) [] w1) as [[es|e] w2];
    cbn in Hw2; subst w2; [|done].
  destruct (make_dicts (x :: cs) w1) as [[dcts|e] w3] eqn:E3.
  2:{ assert (w3 = w1) as ->; [|done].
      unfold make_dicts, ret, raise in E3. by repeat case_match; simplify_eq. }
  assert (w3 = w1) as ->.
  { unfold make_dicts, ret, raise in E3. by repeat case_match; simplify_eq. }
  destruct (plot_cases (x :: cs) es dcts.1 dcts.2 w1) as [[png E]|[e E]];
    rewrite E; unfold ret; cbn [fst snd files set_shown set_files]; [|done].
  by rewrite lookup_insert_ne.
Qed.

End MainRuns.

(** * Concrete runs

    The theorems above, applied to the small library of [Toy]. *)

#[local] Existing Instance Toy.lib.

(** Iron and copper entries are stored and read back unchanged. *)
Lemma save_then_load_roundtrip_witness :
  ∃ w', save_pourbaix_entries "Fe" ["Fe(s)"; "Fe2O3(s)"] Toy.fresh
          = (Ok tt, w')
        ∧ get_stored_pourbaix_entries "Fe" w'
          = (Ok ["Fe(s)"; "Fe2O3(s)"], w').
Proof.
  apply (save_then_load_roundtrip (L := Toy.lib) "Fe" ["Fe(s)"; "Fe2O3(s)"]
           Toy.fresh).
  - split; [reflexivity|]. repeat constructor.
  - by vm_compute.
Defined.

(** Listing iron twice loads its collection twice. *)
Lemma load_all_entries_concat_witness :
  load_all_entries ["Fe"; "Fe"] [] Toy.cached
  = (Ok (concat [["Fe(s)"]; ["Fe(s)"]]), Toy.cached).
Proof.
  apply (load_all_entries_concat (L := Toy.lib) ["Fe"; "Fe"]
           [["Fe(s)"]; ["Fe(s)"]] Toy.cached).
  repeat constructor.
Defined.

(** With iron cached and copper not, only copper is queried and the iron
    file keeps its content. *)
Lemma cache_hit_untouched_witness :
  files (compounds_entries_to_disk ["Cu"; "Fe"] Toy.cached).2
    !! entries_path "Fe" = Some "Fe(s);"
  ∧ ∃ new,
      requests (compounds_entries_to_disk ["Cu"; "Fe"] Toy.cached).2
        = requests Toy.cached ++ new
      ∧ Forall (λ q, "Fe" ∉ q) new.
Proof.
  destruct (cache_hit_untouched (L := Toy.lib) ["Cu"; "Fe"] "Fe" Toy.cached)
    as [Hf Hr]; [reflexivity | by exists "Fe(s);" |].
  split; [by rewrite Hf | exact Hr].
Defined.




Lemma concentration_map_witness :
  ∃ comp conc,
    make_dicts ["Fe"; "Cu"] Toy.fresh = (Ok (comp, conc), Toy.fresh)
    ∧ (∀ c, c ∈ dict_keys conc ↔ c ∈ ["Fe"; "Cu"])
    ∧ (∀ c, c ∈ ["Fe"; "Cu"] → dict_get c conc = Some ion_concentration)
    ∧ Forall (λ v, v = ion_concentration) (dict_values conc)
    ∧ (ion_concentration * inject_Z (10 ^ 8) == 1)%Q.
Proof. apply (concentration_map ["Fe"; "Cu"] Toy.fresh). done. Defined.


(** Iron and oxygen are drawn into [pourbaix_diagrams/FeO.png]. *)
Lemma diagram_file_name_witness :
  plot_pourbaix_diagram ["Fe"; "O"] ["Fe(s)"]
    [("Fe", 1 # 2); ("O", 1 # 2)]
    [("Fe", ion_concentration); ("O", ion_concentration)] Toy.fresh
  = (Ok tt,
     set_shown 1
       (set_files {[ "pourbaix_diagrams/FeO.png" := "Fe(s);Fe;O;" ]} Toy.fresh)).
Proof.
  destruct (diagram_file_name (L := Toy.lib) ["Fe"; "O"] ["Fe(s)"]
              [("Fe", 1 # 2); ("O", 1 # 2)]
              [("Fe", ion_concentration); ("O", ion_concentration)]
              Toy.fresh (["Fe(s)"], ["Fe"; "O"]) "Fe(s);Fe;O;")
    as [H _]; [reflexivity | reflexivity | by vm_compute |].
  exact H.
Defined.

Lemma wf_world_bare : wf_world Toy.bare.
Proof.
  intros p [[v Hv]|Hd]%bool_decide_eq_true; cbn in *.
  - by rewrite lookup_empty in Hv.
  - by apply not_elem_of_empty in Hd.
Qed.

(** In a working directory without the two directories nothing can be
    saved, the presence check does not complain, and a run for iron ends
    in the file-not-found error of the save. *)
Lemma directories_must_exist_witness :
  save_pourbaix_entries "Fe" ["Fe(s)"] Toy.bare
    = (Raise (FileNotFoundError "pourbaix_entries/Fe.json"), Toy.bare)
  ∧ glob "pourbaix_entries/Fe.json" Toy.bare = (Ok [], Toy.bare)
  ∧ (main_with ["Fe"] Toy.bare).1
    = Raise (FileNotFoundError "pourbaix_entries/Fe.json")
  ∧ plot_pourbaix_diagram ["Fe"] ["Fe(s)"] [("Fe", 1%Q)]
      [("Fe", ion_concentration)] Toy.bare
    = (Raise (FileNotFoundError "pourbaix_diagrams/Fe.png"), Toy.bare).
Proof.
  destruct (directories_must_exist (L := Toy.lib) ["Fe"] "Fe" ["Fe(s)"]
              [("Fe", 1%Q)]
              [("Fe", ion_concentration)] Toy.bare)
    as (_ & Hcache & Hmain & Hplot).
  destruct Hcache as [Hsave Hglob]; [by apply not_elem_of_empty|].
  split_and!.
  - exact Hsave.
  - apply Hglob; [apply wf_world_bare|reflexivity].
  - apply Hmain;
      [by apply not_elem_of_empty|apply wf_world_bare|reflexivity|by eexists].
  - apply Hplot; [by apply not_elem_of_empty|by eexists|intros; by eexists].
Defined.

(** ** Two complete runs *)

(** Iron alone, nothing cached: one request, one cache file, one image. *)
Example run_iron_uncached :
  (main_with ["Fe"] Toy.fresh).1 = Ok 0%Z
  ∧ requests (main_with ["Fe"] Toy.fresh).2 = [["Fe"]]
  ∧ size (files (main_with ["Fe"] Toy.fresh).2) = 2%nat
  ∧ files (main_with ["Fe"] Toy.fresh).2 !! "pourbaix_entries/Fe.json"
    = Some "Fe(s);Fe2O3(s);Fe[2+];"
  ∧ files (main_with ["Fe"] Toy.fresh).2 !! "pourbaix_diagrams/Fe.png"
    = Some "Fe(s);Fe2O3(s);Fe[2+];Fe;".
Proof. by vm_compute. Qed.

(** Iron cached: no request, and the image is drawn from the cached file. *)
Example run_iron_cached :
  (main_with ["Fe"] Toy.cached).1 = Ok 0%Z
  ∧ requests (main_with ["Fe"] Toy.cached).2 = []
  ∧ files (main_with ["Fe"] Toy.cached).2 !! "pourbaix_entries/Fe.json"
    = Some "Fe(s);"
  ∧ files (main_with ["Fe"] Toy.cached).2 !! "pourbaix_diagrams/Fe.png"
    = Some "Fe(s);Fe;".
Proof. by vm_compute. Qed.

(** * Further concrete runs *)

(** Iron listed twice and copper once, nothing cached: both end up on
    disk and a second run is idle. *)
Lemma second_run_is_noop_witness :
  ∃ w',
    compounds_entries_to_disk ["Fe"; "Cu"; "Fe"] Toy.fresh = (Ok tt, w')
    ∧ Forall (λ x, lexists w' (entries_path x) = true) ["Fe"; "Cu"; "Fe"]
    ∧ compounds_entries_to_disk ["Fe"; "Cu"; "Fe"] w' = (Ok tt, w').
Proof.
  apply (second_run_is_noop (L := Toy.lib) ["Fe"; "Cu"; "Fe"] Toy.fresh).
  - by repeat constructor.
  - repeat (constructor; [right; split; [by eexists|by vm_compute]|]).
    constructor.
Defined.

Lemma each_miss_requested_once_witness :
  ∃ w' new,
    compounds_entries_to_disk ["Fe"; "Cu"; "Fe"] Toy.fresh = (Ok tt, w')
    ∧ requests w' = requests Toy.fresh ++ new
    ∧ NoDup new
    ∧ ∀ q, q ∈ new
           ↔ ∃ x, x ∈ ["Fe"; "Cu"; "Fe"] ∧ q = [x]
                  ∧ lexists Toy.fresh (entries_path x) = false.
Proof.
  apply (each_miss_requested_once (L := Toy.lib) ["Fe"; "Cu"; "Fe"] Toy.fresh).
  - by repeat constructor.
  - repeat (constructor; [right; split; [by eexists|by vm_compute]|]).
    constructor.
Defined.

(** Iron is fetched, the unknown element stops the run, copper is never
    asked for. *)
Lemma fetch_failure_stops_run_witness :
  ∃ w',
    compounds_entries_to_disk (["Fe"] ++ "Zz" :: ["Cu"]) Toy.fresh
      = (Raise (ExternalError "unknown element"), w')
    ∧ files w' = files (compounds_entries_to_disk ["Fe"] Toy.fresh).2
    ∧ requests w'
      = requests (compounds_entries_to_disk ["Fe"] Toy.fresh).2 ++ [["Zz"]].
Proof.
  apply (fetch_failure_stops_run (L := Toy.lib) ["Fe"] ["Cu"] "Zz" Toy.fresh).
  - by vm_compute.
  - reflexivity.
  - by vm_compute.
  - by vm_compute.
Defined.

Lemma saves_do_not_interfere_witness :
  ∃ w1 w2,
    save_pourbaix_entries "Fe" ["Fe(s)"] Toy.fresh = (Ok tt, w1)
    ∧ save_pourbaix_entries "Cu" ["Cu(s)"; "CuO(s)"] w1 = (Ok tt, w2)
    ∧ get_stored_pourbaix_entries "Fe" w2 = (Ok ["Fe(s)"], w2)
    ∧ get_stored_pourbaix_entries "Cu" w2 = (Ok ["Cu(s)"; "CuO(s)"], w2).
Proof.
  apply (saves_do_not_interfere (L := Toy.lib) "Fe" "Cu" ["Fe(s)"]
           ["Cu(s)"; "CuO(s)"] Toy.fresh).
  - done.
  - by vm_compute.
  - by vm_compute.
  - split; [reflexivity|by repeat constructor].
  - split; [reflexivity|by repeat constructor].
Defined.

Lemma maps_share_keys_witness :
  make_dicts [] Toy.fresh = (Raise IndexError, Toy.fresh)
  ∧ ∃ comp conc,
      make_dicts ["Fe"; "Cu"; "Fe"] Toy.fresh = (Ok (comp, conc), Toy.fresh)
      ∧ dict_keys comp = dict_keys conc
      ∧ ∀ c, c ∈ ["Fe"; "Cu"; "Fe"] →
             is_Some (dict_get c comp) ∧ is_Some (dict_get c conc).
Proof.
  split.
  - by apply (maps_share_keys [] Toy.fresh).
  - by apply (maps_share_keys ["Fe"; "Cu"; "Fe"] Toy.fresh).
Defined.

(** A run for iron and copper from a fresh directory returns 0. *)
Lemma exit_status_of_main_witness :
  (["Fe"; "Cu"] = [] ∧ 0%Z = 1%Z)
  ∨ (["Fe"; "Cu"] ≠ [] ∧ 0%Z = 0%Z
     ∧ stdout (main_with ["Fe"; "Cu"] Toy.fresh).2 = stdout Toy.fresh
     ∧ shown (main_with ["Fe"; "Cu"] Toy.fresh).2 = S (shown Toy.fresh)).
Proof.
  apply (exit_status_of_main (L := Toy.lib) ["Fe"; "Cu"] Toy.fresh).
  by vm_compute.
Defined.

(** The cached iron file survives a whole run for copper and iron. *)
Lemma main_keeps_cache_files_witness :
  files (main_with ["Cu"; "Fe"] Toy.cached).2 !! entries_path "Fe"
    = Some "Fe(s);"
  ∧ ∃ new, requests (main_with ["Cu"; "Fe"] Toy.cached).2
           = requests Toy.cached ++ new
           ∧ Forall (λ q, "Fe" ∉ q) new.
Proof.
  destruct (main_keeps_cache_files (L := Toy.lib) ["Cu"; "Fe"] "Fe" Toy.cached)
    as [Hf Hr]; [reflexivity | by exists "Fe(s);" |].
  split; [by rewrite Hf | exact Hr].
Defined.


(** A file of the user in the working directory is not touched by a run
    for iron. *)
Lemma main_writes_only_its_files_witness :
  files (main_with ["Fe"]
           (World {[ "pourbaix_entries"; "pourbaix_diagrams" ]}
                  {[ "notes.txt" := "keep" ]} ∅ [] [] 0)).2 !! "notes.txt"
  = Some "keep".
Proof.
  rewrite (main_writes_only_its_files (L := Toy.lib) ["Fe"] "notes.txt").
  - reflexivity.
  - intros x ->%list_elem_of_singleton. by vm_compute.
  - by vm_compute.
Defined.

(** Without the diagrams directory the renderer raises, and a file of the
    user is as before. *)
Lemma plot_saves_before_showing_witness :
  (∃ e, plot_pourbaix_diagram ["Fe"] ["Fe(s)"] [("Fe", 1%Q)]
          [("Fe", ion_concentration)]
          (World ∅ {[ "notes.txt" := "keep" ]} ∅ [] [] 0)
        = (Raise e, World ∅ {[ "notes.txt" := "keep" ]} ∅ [] [] 0))
  ∧ files (plot_pourbaix_diagram ["Fe"] ["Fe(s)"] [("Fe", 1%Q)]
             [("Fe", ion_concentration)] Toy.fresh).2 !! "notes.txt"
    = files Toy.fresh !! "notes.txt".
Proof.
  split.
  - destruct (plot_saves_before_showing (L := Toy.lib) ["Fe"] ["Fe(s)"]
                [("Fe", 1%Q)] [("Fe", ion_concentration)]
                (World ∅ {[ "notes.txt" := "keep" ]} ∅ [] [] 0))
      as [[[Hok _]|Hraise] _]; [by vm_compute in Hok|exact Hraise].
  - apply (plot_saves_before_showing (L := Toy.lib) ["Fe"] ["Fe(s)"]
             [("Fe", 1%Q)] [("Fe", ion_concentration)] Toy.fresh).
    by vm_compute.
Defined.
